(** * pydbm.loss.mean_squared_error: the mean squared error with gradient clipping

    A shallow embedding of [MeanSquaredError] (compute_loss, compute_delta,
    reverse_delta) and of the NumPy operations its three methods call.

    Numbers are exact: an array element is a real number or [NaN], the one
    non-finite value these methods can produce from finite data (0/0, in the
    rescaling by a zero norm and in the mean over no element).  Rounding,
    overflow and infinities are outside the model.  Python exceptions are
    the [Raise] results of an error monad.  The batch size is the 32-bit
    [int] of the code. *)

From Stdlib Require Import Reals Lra Lia ZArith List Bool PeanoNat.
Import ListNotations.

(** ** Exceptions *)

Inductive exn : Type :=
  | ValueError      (* shapes that do not broadcast; a repeated axis *)
  | AxisError       (* an axis out of range *)
  | InvalidRead.    (* not an exception: the C read of dimension 0 of a 0-d array *)

Inductive result (A : Type) : Type :=
  | Ok (a : A)
  | Raise (e : exn).

Arguments Ok {A} a.
Arguments Raise {A} e.

Definition bind {A B : Type} (c : result A) (k : A -> result B) : result B :=
  match c with
  | Ok a => k a
  | Raise e => Raise e
  end.

Notation "x <- c ;; k" := (bind c (fun x => k))
  (at level 61, c at next level, right associativity).

Fixpoint mapM {A B : Type} (f : A -> result B) (l : list A) : result (list B) :=
  match l with
  | [] => Ok []
  | a :: l' => b <- f a ;; bs <- mapM f l' ;; Ok (b :: bs)
  end.

(** ** Array elements *)

Module Float.

Local Open Scope R_scope.

Inductive float : Type :=
  | Fin (r : R)
  | NaN.

Definition add (x y : float) : float :=
  match x, y with
  | Fin a, Fin b => Fin (a + b)
  | _, _ => NaN
  end.

Definition sub (x y : float) : float :=
  match x, y with
  | Fin a, Fin b => Fin (a - b)
  | _, _ => NaN
  end.

Definition mul (x y : float) : float :=
  match x, y with
  | Fin a, Fin b => Fin (a * b)
  | _, _ => NaN
  end.

(** True division; a zero divisor gives no finite value. *)
Definition div (x y : float) : float :=
  match x, y with
  | Fin a, Fin b => if Req_dec_T b 0 then NaN else Fin (a / b)
  | _, _ => NaN
  end.

Definition sqrt (x : float) : float :=
  match x with
  | Fin a => if Rlt_dec a 0 then NaN else Fin (R_sqrt.sqrt a)
  | NaN => NaN
  end.

(** [x > y]; every comparison with NaN is false. *)
Definition gt (x y : float) : bool :=
  match x, y with
  | Fin a, Fin b => if Rgt_dec a b then true else false
  | _, _ => false
  end.

Definition of_Z (z : Z) : float := Fin (IZR z).
Definition of_nat (n : nat) : float := Fin (INR n).

Definition is_finite (x : float) : Prop :=
  match x with Fin _ => True | NaN => False end.

Definition sum (l : list float) : float := fold_right add (Fin 0) l.

End Float.

Import Float.

(** ** N-dimensional arrays: a shape and the elements in row-major order *)

Record ndarray : Type := mk_ndarray {
  shape : list nat;
  data : list float
}.

Definition size_of (s : list nat) : nat := fold_right Nat.mul 1%nat s.

(** The invariant of an array: as many elements as its shape says. *)
Definition wf (a : ndarray) : Prop := length (data a) = size_of (shape a).

Definition finite (a : ndarray) : Prop := Forall is_finite (data a).

Definition scalar (x : float) : ndarray := mk_ndarray [] [x].

(** *** Broadcasting *)

(** Shapes are matched from their last dimension; two dimensions are
    compatible when they are equal or one of them is 1. *)
Fixpoint broadcast_dims (r1 r2 : list nat) : option (list nat) :=
  match r1, r2 with
  | [], _ => Some r2
  | _, [] => Some r1
  | n :: r1', m :: r2' =>
      match broadcast_dims r1' r2' with
      | None => None
      | Some r =>
          if Nat.eqb n m then Some (n :: r)
          else if Nat.eqb n 1 then Some (m :: r)
          else if Nat.eqb m 1 then Some (n :: r)
          else None
      end
  end.

Definition broadcast_shapes (s1 s2 : list nat) : option (list nat) :=
  option_map (@rev nat) (broadcast_dims (rev s1) (rev s2)).

(** [expand tgt src d]: the elements [d] of an array of shape [src] repeated
    to the shape [tgt], where [src] has the rank of [tgt] and each of its
    dimensions is the target's or 1. *)
Fixpoint expand (tgt src : list nat) (d : list float) : list float :=
  match tgt, src with
  | n :: tgt', m :: src' =>
      let inner := size_of src' in
      if Nat.eqb m n
      then flat_map (fun k => expand tgt' src' (firstn inner (skipn (k * inner) d)))
                    (seq 0 n)
      else concat (repeat (expand tgt' src' d) n)
  | _, _ => d
  end.

Definition broadcast_to (tgt : list nat) (a : ndarray) : list float :=
  expand tgt (repeat 1%nat (length tgt - length (shape a)) ++ shape a) (data a).

Fixpoint map2 {A B C : Type} (f : A -> B -> C) (l1 : list A) (l2 : list B) : list C :=
  match l1, l2 with
  | a :: l1', b :: l2' => f a b :: map2 f l1' l2'
  | _, _ => []
  end.

(** A binary ufunc ([-], [+]) on two arrays. *)
Definition ufunc2 (f : float -> float -> float) (a b : ndarray) : result ndarray :=
  match broadcast_shapes (shape a) (shape b) with
  | None => Raise ValueError
  | Some s => Ok (mk_ndarray s (map2 f (broadcast_to s a) (broadcast_to s b)))
  end.

Definition subtract : ndarray -> ndarray -> result ndarray := ufunc2 sub.
Definition add_arr : ndarray -> ndarray -> result ndarray := ufunc2 add.

(** In-place [a += b]: the result is written to [a], so the broadcast shape
    has to be the shape of [a]. *)
Definition iadd (a b : ndarray) : result ndarray :=
  match broadcast_shapes (shape a) (shape b) with
  | None => Raise ValueError
  | Some s =>
      if list_eq_dec Nat.eq_dec s (shape a)
      then Ok (mk_ndarray s (map2 add (broadcast_to s a) (broadcast_to s b)))
      else Raise ValueError
  end.

(** An array and a scalar. *)
Definition multiply_scalar (a : ndarray) (c : float) : ndarray :=
  mk_ndarray (shape a) (map (fun x => mul x c) (data a)).

Definition divide_scalar (a : ndarray) (c : float) : ndarray :=
  mk_ndarray (shape a) (map (fun x => div x c) (data a)).

(** np.square *)
Definition square (a : ndarray) : ndarray :=
  mk_ndarray (shape a) (map (fun x => mul x x) (data a)).

(** np.linalg.norm without [ord] and [axis]: the 2-norm of the flattened
    array. *)
Definition norm (a : ndarray) : float :=
  Float.sqrt (Float.sum (map (fun x => mul x x) (data a))).

(** *** Reductions *)

(** The [axis] argument of a reduction: [None], an int, or a tuple of ints. *)
Inductive axis_arg : Type :=
  | AxisNone
  | AxisInt (k : Z)
  | AxisTuple (ks : list Z).

(** An axis counts from the end when it is negative. *)
Definition normalize_axis (ndim : nat) (k : Z) : result nat :=
  if ((- Z.of_nat ndim <=? k) && (k <? Z.of_nat ndim))%Z
  then Ok (Z.to_nat (if (k <? 0)%Z then k + Z.of_nat ndim else k))
  else Raise AxisError.

(** The sum along axis [k]: with [outer], [n] and [inner] the sizes before,
    at and after the axis, element [(o, i)] of the result adds the elements
    [(o, j, i)], [j < n]. *)
Definition sum_axis (k : nat) (a : ndarray) : ndarray :=
  let outer := size_of (firstn k (shape a)) in
  let n := nth k (shape a) 1%nat in
  let inner := size_of (skipn (S k) (shape a)) in
  mk_ndarray (firstn k (shape a) ++ skipn (S k) (shape a))
    (flat_map
       (fun o =>
          map (fun i =>
                 Float.sum
                   (map (fun j => nth ((o * n + j) * inner + i) (data a) (Fin 0))
                        (seq 0 n)))
              (seq 0 inner))
       (seq 0 outer)).

(** The sum along several axes, the last axis first. *)
Definition sum_axes (axes : list nat) (a : ndarray) : ndarray :=
  fold_left
    (fun acc k => if existsb (Nat.eqb k) axes then sum_axis k acc else acc)
    (rev (seq 0 (length (shape a)))) a.

Fixpoint has_dup (l : list nat) : bool :=
  match l with
  | [] => false
  | k :: l' => existsb (Nat.eqb k) l' || has_dup l'
  end.

(** ndarray.mean: the sum over the reduced elements divided by their count. *)
Definition mean (a : ndarray) (axis : axis_arg) : result ndarray :=
  match axis with
  | AxisNone =>
      Ok (scalar (div (Float.sum (data a)) (of_nat (size_of (shape a)))))
  | AxisInt k =>
      i <- normalize_axis (length (shape a)) k ;;
      Ok (divide_scalar (sum_axis i a) (of_nat (nth i (shape a) 1%nat)))
  | AxisTuple ks =>
      axes <- mapM (normalize_axis (length (shape a))) ks ;;
      if has_dup axes then Raise ValueError
      else
        let count := fold_right (fun i c => (nth i (shape a) 1 * c)%nat) 1%nat axes in
        Ok (divide_scalar (sum_axes axes a) (of_nat count))
  end.

(** ** The class *)

(** The conversion of a C integer to a 32-bit [int]: the value modulo 2^32,
    in [-2^31, 2^31). *)
Definition to_int (z : Z) : Z := ((z + 2 ^ 31) mod 2 ^ 32 - 2 ^ 31)%Z.

(** [cdef int batch_size = arr.shape[0]]: on an array typed [np.ndarray],
    [shape] is the C array of the dimensions, read without check and
    narrowed to [int]. *)
Definition shape0 (arr : ndarray) : result Z :=
  match shape arr with
  | [] => Raise InvalidRead
  | n :: _ => Ok (to_int (Z.of_nat n))
  end.

Record MeanSquaredError : Type := mk_MeanSquaredError {
  penalty_arr : option ndarray;
  __grad_clip_threshold : R
}.

Definition __init__ (grad_clip_threshold : R) : MeanSquaredError :=
  {| penalty_arr := None; __grad_clip_threshold := grad_clip_threshold |}.

(** [self.penalty_arr = p], as the callers of the class set it. *)
Definition set_penalty_arr (self : MeanSquaredError) (p : option ndarray)
  : MeanSquaredError :=
  {| penalty_arr := p; __grad_clip_threshold := __grad_clip_threshold self |}.

(** compute_loss up to the in-place addition of the penalty: the array that
    its last line squares. *)
Definition compute_loss_diff (self : MeanSquaredError) (pred_arr labeled_arr : ndarray)
  : result ndarray :=
  batch_size <- shape0 labeled_arr ;;
  d <- subtract labeled_arr pred_arr ;;
  let diff_arr := divide_scalar d (of_Z batch_size) in
  let v := norm diff_arr in
  let diff_arr :=
    if gt v (Fin (__grad_clip_threshold self))
    then divide_scalar (multiply_scalar diff_arr (Fin (__grad_clip_threshold self))) v
    else diff_arr in
  match penalty_arr self with
  | Some p => iadd diff_arr p
  | None => Ok diff_arr
  end.

Definition compute_loss (self : MeanSquaredError) (pred_arr labeled_arr : ndarray)
    (axis : axis_arg) : result ndarray :=
  diff_arr <- compute_loss_diff self pred_arr labeled_arr ;;
  mean (square diff_arr) axis.

Definition compute_delta (self : MeanSquaredError) (pred_arr labeled_arr : ndarray)
    (delta_output : R) : result ndarray :=
  batch_size <- shape0 labeled_arr ;;
  d <- subtract pred_arr labeled_arr ;;
  let delta_arr := multiply_scalar (divide_scalar d (of_Z batch_size)) (Fin delta_output) in
  let v := norm delta_arr in
  let delta_arr :=
    if gt v (Fin (__grad_clip_threshold self))
    then divide_scalar (multiply_scalar delta_arr (Fin (__grad_clip_threshold self))) v
    else delta_arr in
  match penalty_arr self with
  | Some p => iadd delta_arr p
  | None => Ok delta_arr
  end.

Definition reverse_delta (self : MeanSquaredError) (delta_arr labeled_arr : ndarray)
    (delta_output : R) : result ndarray :=
  batch_size <- shape0 labeled_arr ;;
  add_arr (multiply_scalar delta_arr (mul (of_Z batch_size) (Fin delta_output)))
          labeled_arr.

(** * The specification's notions *)

(** ** The clipping, as the specification words it *)

(** The factor of the rescaling: threshold / norm when the norm exceeds the
    threshold, else 1. *)
Definition clip_factor (threshold : R) (v : float) : float :=
  if gt v (Fin threshold) then div (Fin threshold) v else Fin 1%R.

Definition clip (threshold : R) (a : ndarray) : ndarray :=
  multiply_scalar a (clip_factor threshold (norm a)).

(** "adds penalty_arr if set" *)
Definition add_penalty (self : MeanSquaredError) (a : ndarray) : result ndarray :=
  match penalty_arr self with
  | Some p => iadd a p
  | None => Ok a
  end.

(** The raw difference of compute_loss and the raw delta of compute_delta on
    arrays of one shape, element by element. *)
Definition raw_diff (pred_arr labeled_arr : ndarray) (batch_size : Z) : ndarray :=
  mk_ndarray (shape labeled_arr)
    (map2 (fun l p => div (sub l p) (of_Z batch_size)) (data labeled_arr) (data pred_arr)).

Definition raw_delta (pred_arr labeled_arr : ndarray) (batch_size : Z) (delta_output : R)
  : ndarray :=
  mk_ndarray (shape pred_arr)
    (map2 (fun p l => mul (div (sub p l) (of_Z batch_size)) (Fin delta_output))
          (data pred_arr) (data labeled_arr)).

(** The sum of the squares of a list of reals. *)
Definition sumsq (xs : list R) : R :=
  fold_right Rplus 0%R (map (fun x => (x * x)%R) xs).

(** np.zeros *)
Definition zeros (s : list nat) : ndarray :=
  mk_ndarray s (repeat (Fin 0) (size_of s)).

Definition all_zero (a : ndarray) : Prop := Forall (eq (Fin 0)) (data a).

(** The opposite of an element. *)
Definition opp (x : float) : float :=
  match x with
  | Fin r => Fin (- r)
  | NaN => NaN
  end.

(** An element that is not a negative number. *)
Definition nonneg_or_nan (x : float) : Prop :=
  match x with
  | Fin r => (0 <= r)%R
  | NaN => True
  end.

(** * Properties *)

(** ** Concrete runs of the array operations *)

Example broadcast_shapes_run :
  broadcast_shapes [2; 3] [3] = Some [2; 3]
  /\ broadcast_shapes [2; 1] [1; 3] = Some [2; 3]
  /\ broadcast_shapes [0; 3] [1; 3] = Some [0; 3]
  /\ broadcast_shapes [2; 3] [] = Some [2; 3]
  /\ broadcast_shapes [2; 3] [2] = None.
Proof. repeat split. Qed.

Example broadcast_to_run :
  broadcast_to [2; 3] (mk_ndarray [3] [Fin 1; Fin 2; Fin 3]) =
    [Fin 1; Fin 2; Fin 3; Fin 1; Fin 2; Fin 3]
  /\ broadcast_to [2; 3] (mk_ndarray [2; 1] [Fin 1; Fin 2]) =
    [Fin 1; Fin 1; Fin 1; Fin 2; Fin 2; Fin 2]
  /\ broadcast_to [2; 2] (scalar (Fin 7)) = [Fin 7; Fin 7; Fin 7; Fin 7].
Proof. repeat split. Qed.

(** The sums of [[1, 2, 3], [4, 5, 6]] along its two axes. *)
Example sum_axis_run :
  let a := mk_ndarray [2; 3] [Fin 1; Fin 2; Fin 3; Fin 4; Fin 5; Fin 6] in
  sum_axis 0 a = mk_ndarray [3] [Fin (1 + (4 + 0)); Fin (2 + (5 + 0)); Fin (3 + (6 + 0))]
  /\ sum_axis 1 a = mk_ndarray [2] [Fin (1 + (2 + (3 + 0))); Fin (4 + (5 + (6 + 0)))]
  /\ mean a (AxisInt (-1)) = Ok (divide_scalar (sum_axis 1 a) (of_nat 3))
  /\ mean a (AxisTuple [0; 1]%Z) = Ok (divide_scalar (sum_axes [0; 1] a) (of_nat 6))
  /\ mean a (AxisInt 2) = Raise AxisError
  /\ mean a (AxisTuple [1; -1]%Z) = Raise ValueError.
Proof. intros a. repeat split; reflexivity. Qed.

Example to_int_run :
  to_int 5 = 5%Z /\ to_int (2 ^ 31 - 1) = (2 ^ 31 - 1)%Z
  /\ to_int (2 ^ 31) = (- 2 ^ 31)%Z /\ to_int (2 ^ 32) = 0%Z.
Proof. repeat split. Qed.

(** ** The error monad *)

Lemma bind_Ok {A B : Type} (a : A) (k : A -> result B) : bind (Ok a) k = k a.
Proof. reflexivity. Qed.

(** ** Broadcasting two arrays of one shape *)

Section SameShape.

Lemma broadcast_dims_same (r : list nat) : broadcast_dims r r = Some r.
Proof.
  induction r as [ | n r IH ]; simpl; [ reflexivity | ].
  rewrite IH, Nat.eqb_refl. reflexivity.
Qed.

Lemma broadcast_shapes_same (s : list nat) : broadcast_shapes s s = Some s.
Proof.
  unfold broadcast_shapes. rewrite broadcast_dims_same. simpl.
  rewrite rev_involutive. reflexivity.
Qed.

Lemma flat_map_ext_seq {A : Type} (f g : nat -> list A) (n : nat) :
  (forall k, (k < n)%nat -> f k = g k) ->
  flat_map f (seq 0 n) = flat_map g (seq 0 n).
Proof.
  intros H. rewrite !flat_map_concat_map. f_equal.
  apply map_ext_in. intros k Hk. apply in_seq in Hk. apply H. lia.
Qed.

(** Cutting a list of [n * m] elements in [n] rows of [m] and joining the
    rows gives the list back. *)
Lemma rows_concat {A : Type} (m n : nat) : forall d : list A,
  length d = (n * m)%nat ->
  flat_map (fun k => firstn m (skipn (k * m) d)) (seq 0 n) = d.
Proof.
  induction n as [ | n IH ]; intros d Hd.
  - destruct d; [ reflexivity | discriminate Hd ].
  - cbn [seq flat_map]. rewrite <- seq_shift, flat_map_concat_map, map_map,
      <- flat_map_concat_map.
    rewrite (flat_map_ext (fun k => firstn m (skipn (S k * m) d))
                          (fun k => firstn m (skipn (k * m) (skipn m d)))).
    + rewrite IH.
      * simpl. apply firstn_skipn.
      * rewrite length_skipn, Hd. simpl. lia.
    + intros k. rewrite skipn_skipn. f_equal. f_equal. simpl. lia.
Qed.

Lemma row_length {A : Type} (m n k : nat) (d : list A) :
  length d = (n * m)%nat -> (k < n)%nat ->
  length (firstn m (skipn (k * m) d)) = m.
Proof.
  intros Hd Hk. rewrite length_firstn, length_skipn, Hd. nia.
Qed.

Lemma expand_same : forall (s : list nat) (d : list float),
  length d = size_of s -> expand s s d = d.
Proof.
  induction s as [ | n s IH ]; intros d Hd; [ reflexivity | ].
  cbn [expand]. rewrite Nat.eqb_refl. cbn [size_of fold_right] in Hd.
  fold (size_of s) in Hd.
  rewrite (flat_map_ext_seq _ (fun k => firstn (size_of s) (skipn (k * size_of s) d))).
  - apply rows_concat. exact Hd.
  - intros k Hk. apply IH. apply (row_length _ _ _ _ Hd Hk).
Qed.

Lemma broadcast_to_same (a : ndarray) : wf a -> broadcast_to (shape a) a = data a.
Proof.
  intros Ha. unfold broadcast_to. rewrite Nat.sub_diag. simpl.
  apply expand_same. exact Ha.
Qed.

Variables (f : float -> float -> float) (a b : ndarray).
Hypothesis Hshape : shape a = shape b.
Hypotheses (Ha : wf a) (Hb : wf b).

Lemma ufunc2_same_shape :
  ufunc2 f a b = Ok (mk_ndarray (shape a) (map2 f (data a) (data b))).
Proof.
  unfold ufunc2. rewrite <- Hshape, broadcast_shapes_same.
  rewrite (broadcast_to_same _ Ha). rewrite Hshape, (broadcast_to_same _ Hb).
  reflexivity.
Qed.

Lemma iadd_same_shape :
  iadd a b = Ok (mk_ndarray (shape a) (map2 add (data a) (data b))).
Proof.
  unfold iadd. rewrite <- Hshape, broadcast_shapes_same.
  destruct (list_eq_dec Nat.eq_dec (shape a) (shape a)) as [ _ | Hne ];
    [ | exfalso; apply Hne; reflexivity ].
  rewrite (broadcast_to_same _ Ha). rewrite Hshape, (broadcast_to_same _ Hb).
  reflexivity.
Qed.

End SameShape.

(** ** Arithmetic on array elements *)

Section Elements.

Local Open Scope R_scope.

Lemma div_Fin (x c : R) : c <> 0 -> div (Fin x) (Fin c) = Fin (x / c).
Proof.
  intros Hc. simpl. destruct (Req_dec_T c 0) as [ E | _ ]; [ contradiction | reflexivity ].
Qed.

Lemma div_zero (x : float) : div x (Fin 0) = NaN.
Proof.
  destruct x as [ r | ]; simpl; [ | reflexivity ].
  destruct (Req_dec_T 0 0) as [ _ | N ]; [ reflexivity | exfalso; apply N; reflexivity ].
Qed.

Lemma mul_one (x : float) : mul x (Fin 1) = x.
Proof. destruct x as [ r | ]; simpl; [ f_equal; lra | reflexivity ]. Qed.

(** [x * t / v], as the code writes the rescaling, is [x * (t / v)]. *)
Lemma mul_div_assoc (x v : float) (t : R) :
  div (mul x (Fin t)) v = mul x (div (Fin t) v).
Proof.
  destruct x as [ r | ], v as [ w | ]; simpl; try reflexivity.
  destruct (Req_dec_T w 0); [ reflexivity | ]. f_equal. field. assumption.
Qed.



Lemma gt_Fin_true (v t : R) : v > t -> gt (Fin v) (Fin t) = true.
Proof.
  intros H. simpl. destruct (Rgt_dec v t); [ reflexivity | contradiction ].
Qed.

Lemma gt_Fin_false (v t : R) : v <= t -> gt (Fin v) (Fin t) = false.
Proof.
  intros H. simpl. destruct (Rgt_dec v t); [ lra | reflexivity ].
Qed.

Lemma sumsq_nonneg (xs : list R) : 0 <= sumsq xs.
Proof.
  unfold sumsq. induction xs as [ | x xs IH ]; simpl; [ lra | nra ].
Qed.


Lemma sum_map_Fin (xs : list R) : Float.sum (map Fin xs) = Fin (fold_right Rplus 0 xs).
Proof.
  unfold Float.sum. induction xs as [ | x xs IH ]; simpl; [ reflexivity | ].
  rewrite IH. reflexivity.
Qed.




End Elements.

(** ** The norm *)

Section Norm.

Local Open Scope R_scope.

Lemma norm_Fin (s : list nat) (xs : list R) :
  norm (mk_ndarray s (map Fin xs)) = Fin (R_sqrt.sqrt (sumsq xs)).
Proof.
  unfold norm. simpl. rewrite map_map. simpl.
  rewrite <- (map_map (fun x => x * x) Fin), sum_map_Fin. fold (sumsq xs).
  simpl. destruct (Rlt_dec (sumsq xs) 0) as [ H | _ ]; [ | reflexivity ].
  pose proof (sumsq_nonneg xs). lra.
Qed.




End Norm.

(** ** The clipping *)

Section Clipping.

Local Open Scope R_scope.

Lemma map2_map {A B C D : Type} (f : A -> B -> C) (g : C -> D) :
  forall (l1 : list A) (l2 : list B),
  map g (map2 f l1 l2) = map2 (fun x y => g (f x y)) l1 l2.
Proof.
  induction l1 as [ | x l1 IH ]; intros [ | y l2 ]; simpl; try reflexivity.
  rewrite IH. reflexivity.
Qed.

Lemma map2_Fin (f : R -> R -> R) (g : float -> float -> float) :
  (forall x y, g (Fin x) (Fin y) = Fin (f x y)) ->
  forall xs ys, map2 g (map Fin xs) (map Fin ys) = map Fin (map2 f xs ys).
Proof.
  intros H. induction xs as [ | x xs IH ]; intros [ | y ys ]; simpl; try reflexivity.
  rewrite H, IH. reflexivity.
Qed.

Lemma multiply_scalar_one (a : ndarray) : multiply_scalar a (Fin 1) = a.
Proof.
  destruct a as [ s d ]. unfold multiply_scalar. simpl. f_equal.
  rewrite (map_ext _ (fun x => x) mul_one). apply map_id.
Qed.

(** The three lines of the code that clip are the multiplication by
    [clip_factor]. *)
Lemma code_clip (t : R) (a : ndarray) :
  (if gt (norm a) (Fin t)
   then divide_scalar (multiply_scalar a (Fin t)) (norm a)
   else a) = clip t a.
Proof.
  unfold clip, clip_factor. destruct (gt (norm a) (Fin t)).
  - unfold divide_scalar, multiply_scalar. simpl. f_equal.
    rewrite map_map. apply map_ext. intros x. apply mul_div_assoc.
  - symmetry. apply multiply_scalar_one.
Qed.

Lemma clip_unchanged (t : R) (a : ndarray) :
  gt (norm a) (Fin t) = false -> clip t a = a.
Proof.
  intros H. unfold clip, clip_factor. rewrite H. apply multiply_scalar_one.
Qed.

(** A clipped array on real elements. *)
Lemma clip_Fin (t : R) (s : list nat) (xs : list R) :
  let v := R_sqrt.sqrt (sumsq xs) in
  v > t -> v <> 0 ->
  clip t (mk_ndarray s (map Fin xs)) =
  mk_ndarray s (map Fin (map (fun x => x * t / v) xs)).
Proof.
  intros v Hgt Hv. unfold clip, clip_factor. rewrite norm_Fin.
  fold v. rewrite (gt_Fin_true _ _ Hgt), (div_Fin _ _ Hv).
  unfold multiply_scalar. simpl. f_equal. rewrite !map_map.
  apply map_ext. intros x. simpl. f_equal. unfold Rdiv. ring.
Qed.



End Clipping.

(** ** The three methods on arrays of one shape *)

Section Methods.

Variables (self : MeanSquaredError) (pred_arr labeled_arr : ndarray).
Variable batch_size : Z.
Hypothesis Hshape : shape pred_arr = shape labeled_arr.
Hypotheses (Hpred : wf pred_arr) (Hlabeled : wf labeled_arr).
Hypothesis Hbatch : shape0 labeled_arr = Ok batch_size.

Lemma compute_loss_diff_eq :
  compute_loss_diff self pred_arr labeled_arr =
  add_penalty self
    (clip (__grad_clip_threshold self) (raw_diff pred_arr labeled_arr batch_size)).
Proof.
  unfold compute_loss_diff. rewrite Hbatch, bind_Ok.
  unfold subtract. rewrite (ufunc2_same_shape sub _ _ (eq_sym Hshape) Hlabeled Hpred), bind_Ok.
  cbv zeta. rewrite code_clip. unfold divide_scalar, raw_diff. simpl.
  rewrite map2_map. reflexivity.
Qed.

Lemma compute_delta_eq (delta_output : R) :
  compute_delta self pred_arr labeled_arr delta_output =
  add_penalty self
    (clip (__grad_clip_threshold self)
          (raw_delta pred_arr labeled_arr batch_size delta_output)).
Proof.
  unfold compute_delta. rewrite Hbatch, bind_Ok.
  unfold subtract. rewrite (ufunc2_same_shape sub _ _ Hshape Hpred Hlabeled), bind_Ok.
  cbv zeta. rewrite code_clip.
  replace (multiply_scalar _ (Fin delta_output))
    with (raw_delta pred_arr labeled_arr batch_size delta_output); [ reflexivity | ].
  unfold multiply_scalar, divide_scalar, raw_delta. simpl.
  rewrite map_map, map2_map. reflexivity.
Qed.

End Methods.

(** ** Shapes and lengths *)

Section Shapes.

Lemma map2_length {A B C : Type} (f : A -> B -> C) :
  forall (l1 : list A) (l2 : list B),
  length l1 = length l2 -> length (map2 f l1 l2) = length l1.
Proof.
  induction l1 as [ | x l1 IH ]; intros [ | y l2 ] H; simpl in *;
    try reflexivity; try discriminate H.
  f_equal. apply IH. injection H as H. exact H.
Qed.

Lemma map2_ext {A B C : Type} (f g : A -> B -> C) :
  (forall x y, f x y = g x y) ->
  forall (l1 : list A) (l2 : list B), map2 f l1 l2 = map2 g l1 l2.
Proof.
  intros H. induction l1 as [ | x l1 IH ]; intros [ | y l2 ]; simpl; try reflexivity.
  rewrite H, IH. reflexivity.
Qed.

Lemma iadd_shape (a p r : ndarray) : iadd a p = Ok r -> shape r = shape a.
Proof.
  unfold iadd. destruct (broadcast_shapes (shape a) (shape p)) as [ s | ];
    [ | discriminate ].
  destruct (list_eq_dec Nat.eq_dec s (shape a)) as [ E | _ ]; [ | discriminate ].
  intros H. injection H as H. subst r. exact E.
Qed.

Lemma add_penalty_shape (self : MeanSquaredError) (a r : ndarray) :
  add_penalty self a = Ok r -> shape r = shape a.
Proof.
  unfold add_penalty. destruct (penalty_arr self) as [ p | ].
  - apply iadd_shape.
  - intros H. injection H as H. subst r. reflexivity.
Qed.


Lemma raw_delta_wf (pred_arr labeled_arr : ndarray) (b : Z) (delta_output : R) :
  shape pred_arr = shape labeled_arr -> wf pred_arr -> wf labeled_arr ->
  wf (raw_delta pred_arr labeled_arr b delta_output).
Proof.
  unfold wf, raw_delta. simpl. intros Hs Hp Hl.
  rewrite map2_length; [ exact Hp | ]. rewrite Hp, Hl, Hs. reflexivity.
Qed.

Lemma shape0_nonzero (a : ndarray) (b : Z) :
  shape0 a = Ok b -> (0 < b)%Z -> IZR b <> 0%R.
Proof.
  intros _ Hb. apply not_0_IZR. lia.
Qed.

(** On real elements and with a batch size that is not zero, the raw
    delta and the raw difference are arrays of real numbers. *)
Lemma raw_delta_Fin (s1 s2 : list nat) (ps ls : list R) (b : Z) (delta_output : R) :
  IZR b <> 0%R ->
  raw_delta (mk_ndarray s1 (map Fin ps)) (mk_ndarray s2 (map Fin ls)) b delta_output =
  mk_ndarray s1 (map Fin (map2 (fun p l => ((p - l) / IZR b * delta_output)%R) ps ls)).
Proof.
  intros Hb. unfold raw_delta. simpl. f_equal.
  apply map2_Fin. intros x y. unfold of_Z. cbn [sub].
  rewrite div_Fin by exact Hb. reflexivity.
Qed.

Lemma raw_diff_Fin (s1 s2 : list nat) (ps ls : list R) (b : Z) :
  IZR b <> 0%R ->
  raw_diff (mk_ndarray s1 (map Fin ps)) (mk_ndarray s2 (map Fin ls)) b =
  mk_ndarray s2 (map Fin (map2 (fun l p => ((l - p) / IZR b)%R) ls ps)).
Proof.
  intros Hb. unfold raw_diff. simpl. f_equal.
  apply map2_Fin. intros x y. unfold of_Z. cbn [sub].
  rewrite div_Fin by exact Hb. reflexivity.
Qed.

Lemma reverse_delta_eq (self : MeanSquaredError) (delta_arr labeled_arr : ndarray)
    (delta_output : R) (b : Z) :
  shape0 labeled_arr = Ok b ->
  reverse_delta self delta_arr labeled_arr delta_output =
  add_arr (multiply_scalar delta_arr (Fin (IZR b * delta_output))) labeled_arr.
Proof.
  intros Hbatch. unfold reverse_delta. rewrite Hbatch. reflexivity.
Qed.

Lemma reverse_delta_same_shape (self : MeanSquaredError) (delta_arr labeled_arr : ndarray)
    (delta_output : R) (b : Z) :
  shape0 labeled_arr = Ok b ->
  shape delta_arr = shape labeled_arr -> wf delta_arr -> wf labeled_arr ->
  reverse_delta self delta_arr labeled_arr delta_output =
  Ok (mk_ndarray (shape delta_arr)
        (map2 (fun d l => add (mul d (Fin (IZR b * delta_output))) l)
              (data delta_arr) (data labeled_arr))).
Proof.
  intros Hbatch Hshape Hd Hl.
  rewrite (reverse_delta_eq self delta_arr labeled_arr delta_output b Hbatch).
  unfold add_arr.
  rewrite ufunc2_same_shape; [ | exact Hshape | | exact Hl ].
  - unfold multiply_scalar. simpl. f_equal. f_equal.
    generalize (data labeled_arr). induction (data delta_arr) as [ | d ds IH ];
      intros [ | l ls ]; simpl; try reflexivity.
    rewrite IH. reflexivity.
  - unfold wf, multiply_scalar. simpl. rewrite length_map. exact Hd.
Qed.

End Shapes.

(** ** compute_delta *)



(** ** reverse_delta *)



(** ** Arrays of one element, for the concrete runs *)

Section Singletons.

Local Open Scope R_scope.

Lemma Rabs_sumsq_singleton (x : R) : R_sqrt.sqrt (sumsq [x]) = Rabs x.
Proof.
  unfold sumsq. simpl. rewrite Rplus_0_r. apply sqrt_Rsqr_abs.
Qed.

Lemma raw_delta_singleton (s : list nat) (p l : R) (b : Z) (delta_output : R) :
  IZR b <> 0 ->
  raw_delta (mk_ndarray s [Fin p]) (mk_ndarray s [Fin l]) b delta_output =
  mk_ndarray s [Fin ((p - l) / IZR b * delta_output)].
Proof.
  intros Hb. unfold raw_delta, of_Z. simpl.
  destruct (Req_dec_T (IZR b) 0) as [ E | _ ]; [ contradiction | reflexivity ].
Qed.


Lemma clip_singleton_above (t : R) (s : list nat) (x : R) :
  Rabs x > t -> x <> 0 ->
  clip t (mk_ndarray s [Fin x]) = mk_ndarray s [Fin (x * t / Rabs x)].
Proof.
  intros Hgt Hx. change [Fin x] with (map Fin [x]).
  rewrite clip_Fin; rewrite Rabs_sumsq_singleton.
  - reflexivity.
  - exact Hgt.
  - apply Rabs_no_R0. exact Hx.
Qed.


Lemma singleton_eq (s : list nat) (x y : R) :
  x = y -> mk_ndarray s [Fin x] = mk_ndarray s [Fin y].
Proof. intros H. rewrite H. reflexivity. Qed.

End Singletons.

(** ** compute_delta followed by reverse_delta *)

Lemma roundtrip_elements (b : R) : b <> 0%R ->
  forall ps ls : list R, length ps = length ls ->
  map2 (fun d l => add (mul d (Fin (b * 1))) l)
       (map Fin (map2 (fun p l => ((p - l) / b * 1)%R) ps ls)) (map Fin ls) =
  map Fin ps.
Proof.
  intros Hb. induction ps as [ | p ps IH ]; intros [ | l ls ] H; simpl in *;
    try reflexivity; try discriminate H.
  rewrite IH by (injection H as H; exact H).
  f_equal. f_equal. field. exact Hb.
Qed.

(** C9. Without penalty, with [delta_output = 1] and a raw delta whose norm
    does not exceed the threshold, reverse_delta gives back the predictions
    that compute_delta was given: on arrays of real numbers of one shape,
    with a batch size above zero. *)
Theorem reverse_delta_compute_delta
    (self : MeanSquaredError) (s : list nat) (ps ls : list R) (batch_size : Z) :
  let pred_arr := mk_ndarray s (map Fin ps) in
  let labeled_arr := mk_ndarray s (map Fin ls) in
  wf pred_arr -> wf labeled_arr ->
  shape0 labeled_arr = Ok batch_size -> (0 < batch_size)%Z ->
  penalty_arr self = None ->
  (R_sqrt.sqrt (sumsq (map2 (fun p l => (p - l) / IZR batch_size) ps ls))
   <= __grad_clip_threshold self)%R ->
  (delta_arr <- compute_delta self pred_arr labeled_arr 1 ;;
   reverse_delta self delta_arr labeled_arr 1) = Ok pred_arr.
Proof.
  intros pred_arr labeled_arr Hpred Hlabeled Hbatch Hpos Hnone Hnorm.
  assert (Hb : IZR batch_size <> 0%R) by (apply (shape0_nonzero labeled_arr); assumption).
  assert (Hlen : length ps = length ls).
  { unfold wf in Hpred, Hlabeled. simpl in Hpred, Hlabeled.
    rewrite length_map in Hpred, Hlabeled. congruence. }
  rewrite (compute_delta_eq self pred_arr labeled_arr batch_size eq_refl Hpred Hlabeled Hbatch).
  unfold add_penalty. rewrite Hnone.
  unfold pred_arr, labeled_arr at 1. rewrite (raw_delta_Fin s s ps ls batch_size 1 Hb).
  rewrite clip_unchanged.
  - rewrite bind_Ok.
    rewrite (reverse_delta_same_shape self _ labeled_arr 1 batch_size Hbatch).
    + simpl. rewrite (roundtrip_elements (IZR batch_size) Hb ps ls Hlen). reflexivity.
    + reflexivity.
    + unfold wf. simpl. rewrite length_map, map2_length by exact Hlen.
      unfold wf in Hpred. simpl in Hpred. rewrite length_map in Hpred. exact Hpred.
    + exact Hlabeled.
  - rewrite norm_Fin. apply gt_Fin_false.
    rewrite (map2_ext (fun p l => ((p - l) / IZR batch_size * 1)%R)
                      (fun p l => ((p - l) / IZR batch_size)%R)) by (intros; ring).
    exact Hnorm.
Qed.

Lemma reverse_delta_compute_delta_witness :
  let pred_arr := mk_ndarray [1%nat] [Fin 3] in
  let labeled_arr := mk_ndarray [1%nat] [Fin 1] in
  (delta_arr <- compute_delta (__init__ 100000) pred_arr labeled_arr 1 ;;
   reverse_delta (__init__ 100000) delta_arr labeled_arr 1) = Ok pred_arr.
Proof.
  intros pred_arr labeled_arr.
  apply (reverse_delta_compute_delta (__init__ 100000) [1%nat] [3%R] [1%R] 1);
    try reflexivity.
  simpl map2. rewrite Rabs_sumsq_singleton. simpl.
  unfold Rabs. destruct (Rcase_abs ((3 - 1) / 1)); lra.
Defined.

(** C6. reverse_delta does not undo compute_delta in general: with the
    threshold 1, the prediction 2 and the label 0 (batch size 1, no penalty,
    [delta_output = 1]) the delta 2 is clipped to 1, and reverse_delta gives
    1, not 2. *)
Theorem reverse_delta_not_left_inverse :
  exists (self : MeanSquaredError) (pred_arr labeled_arr : ndarray)
         (delta_output : R) (batch_size : Z) (r : ndarray),
    shape pred_arr = shape labeled_arr /\ wf pred_arr /\ wf labeled_arr /\
    shape0 labeled_arr = Ok batch_size /\ (0 < batch_size)%Z /\
    (delta_arr <- compute_delta self pred_arr labeled_arr delta_output ;;
     reverse_delta self delta_arr labeled_arr delta_output) = Ok r /\
    r <> pred_arr.
Proof.
  exists (__init__ 1), (mk_ndarray [1%nat] [Fin 2]), (mk_ndarray [1%nat] [Fin 0]),
         1%R, 1%Z, (mk_ndarray [1%nat] [Fin 1]).
  repeat (split; [ reflexivity || lia | ]).
  split.
  - rewrite (compute_delta_eq (__init__ 1) (mk_ndarray [1%nat] [Fin 2])
               (mk_ndarray [1%nat] [Fin 0]) 1 eq_refl eq_refl eq_refl eq_refl).
    rewrite raw_delta_singleton by lra.
    rewrite (singleton_eq [1%nat] ((2 - 0) / 1 * 1) 2) by lra.
    cbn [__grad_clip_threshold __init__].
    rewrite clip_singleton_above by (try rewrite Rabs_pos_eq; lra).
    rewrite (singleton_eq [1%nat] (2 * 1 / Rabs 2) 1)
      by (rewrite Rabs_pos_eq by lra; lra).
    unfold add_penalty. cbn [penalty_arr __init__ bind].
    rewrite (reverse_delta_same_shape (__init__ 1) (mk_ndarray [1%nat] [Fin 1])
               (mk_ndarray [1%nat] [Fin 0]) 1 1 eq_refl eq_refl eq_refl eq_refl).
    simpl. f_equal. apply singleton_eq. lra.
  - intros H. injection H as H. lra.
Qed.

(** ** compute_loss *)

Lemma compute_loss_eq
    (self : MeanSquaredError) (pred_arr labeled_arr : ndarray) (axis : axis_arg)
    (batch_size : Z) :
  shape pred_arr = shape labeled_arr -> wf pred_arr -> wf labeled_arr ->
  shape0 labeled_arr = Ok batch_size ->
  compute_loss self pred_arr labeled_arr axis =
  (diff_arr <- add_penalty self
                 (clip (__grad_clip_threshold self)
                       (raw_diff pred_arr labeled_arr batch_size)) ;;
   mean (square diff_arr) axis).
Proof.
  intros Hshape Hpred Hlabeled Hbatch. unfold compute_loss.
  rewrite (compute_loss_diff_eq self pred_arr labeled_arr batch_size Hshape Hpred Hlabeled Hbatch).
  reflexivity.
Qed.




(** ** The clipping of the two methods *)







(** ** The threshold as a bound on the norm *)




(** ** The penalty *)

(** C8, amended.  When penalty_arr is set, compute_loss adds it to the
    clipped difference before squaring and compute_delta adds it to the
    clipped delta it returns; reverse_delta does not read penalty_arr. *)
Theorem penalty_added_by_compute_methods
    (threshold : R) (p pred_arr labeled_arr delta_arr : ndarray)
    (delta_output : R) (axis : axis_arg) :
  let bare := __init__ threshold in
  let self := set_penalty_arr bare (Some p) in
  compute_loss_diff self pred_arr labeled_arr =
    (diff_arr <- compute_loss_diff bare pred_arr labeled_arr ;; iadd diff_arr p)
  /\ compute_loss self pred_arr labeled_arr axis =
    (diff_arr <- compute_loss_diff bare pred_arr labeled_arr ;;
     diff_arr <- iadd diff_arr p ;;
     mean (square diff_arr) axis)
  /\ compute_delta self pred_arr labeled_arr delta_output =
    (delta_arr <- compute_delta bare pred_arr labeled_arr delta_output ;;
     iadd delta_arr p)
  /\ reverse_delta self delta_arr labeled_arr delta_output =
     reverse_delta bare delta_arr labeled_arr delta_output.
Proof.
  intros bare self.
  assert (Hdiff : compute_loss_diff self pred_arr labeled_arr =
                  (diff_arr <- compute_loss_diff bare pred_arr labeled_arr ;;
                   iadd diff_arr p)).
  { unfold compute_loss_diff.
    destruct (shape0 labeled_arr) as [ b | e ]; [ | reflexivity ].
    destruct (subtract labeled_arr pred_arr) as [ d | e ]; reflexivity. }
  split; [ exact Hdiff | split; [ | split ] ].
  - unfold compute_loss. rewrite Hdiff.
    destruct (compute_loss_diff bare pred_arr labeled_arr) as [ d | e ]; reflexivity.
  - unfold compute_delta.
    destruct (shape0 labeled_arr) as [ b | e ]; [ | reflexivity ].
    destruct (subtract pred_arr labeled_arr) as [ d | e ]; reflexivity.
  - reflexivity.
Qed.

(** C8 as it was stated fails for reverse_delta: with the penalty 5 set, the
    delta 1 and the label 0 (batch size 1, [delta_output = 1]) it returns 1,
    as it does without penalty; adding the penalty would give 6. *)
Lemma reverse_delta_ignores_penalty :
  let p := mk_ndarray [1%nat] [Fin 5] in
  let self := set_penalty_arr (__init__ 100000) (Some p) in
  let delta_arr := mk_ndarray [1%nat] [Fin 1] in
  let labeled_arr := mk_ndarray [1%nat] [Fin 0] in
  reverse_delta self delta_arr labeled_arr 1 = Ok (mk_ndarray [1%nat] [Fin 1])
  /\ reverse_delta (__init__ 100000) delta_arr labeled_arr 1 = Ok (mk_ndarray [1%nat] [Fin 1])
  /\ iadd (mk_ndarray [1%nat] [Fin 1]) p = Ok (mk_ndarray [1%nat] [Fin 6])
  /\ mk_ndarray [1%nat] [Fin 6] <> mk_ndarray [1%nat] [Fin 1].
Proof.
  intros p self delta_arr labeled_arr.
  assert (H : forall o, reverse_delta o delta_arr labeled_arr 1 =
                        Ok (mk_ndarray [1%nat] [Fin 1])).
  { intros o.
    rewrite (reverse_delta_same_shape o delta_arr labeled_arr 1 1
               eq_refl eq_refl eq_refl eq_refl).
    simpl. f_equal. apply singleton_eq. lra. }
  split; [ apply H | split; [ apply H | split ] ].
  - rewrite (iadd_same_shape (mk_ndarray [1%nat] [Fin 1]) p eq_refl eq_refl eq_refl).
    simpl. f_equal. apply singleton_eq. lra.
  - intros E. injection E as E. lra.
Qed.

(** ** A batch size of zero *)

Lemma wf_empty (a : ndarray) (s : list nat) :
  shape a = 0%nat :: s -> wf a -> a = mk_ndarray (0%nat :: s) [].
Proof.
  intros Hs Hwf. destruct a as [ sa da ]. simpl in Hs. subst sa.
  unfold wf in Hwf. simpl in Hwf. destruct da; [ reflexivity | discriminate Hwf ].
Qed.

Lemma clip_empty (t : R) (s : list nat) :
  clip t (mk_ndarray s []) = mk_ndarray s [].
Proof. reflexivity. Qed.

Lemma iadd_empty (s : list nat) (p r : ndarray) :
  iadd (mk_ndarray (0%nat :: s) []) p = Ok r -> r = mk_ndarray (0%nat :: s) [].
Proof.
  unfold iadd. simpl shape.
  destruct (broadcast_shapes (0%nat :: s) (shape p)) as [ s' | ]; [ | discriminate ].
  destruct (list_eq_dec Nat.eq_dec s' (0%nat :: s)) as [ E | _ ]; [ | discriminate ].
  subst s'. intros H. injection H as H. subst r. f_equal.
  change (0%nat :: s) with (shape (mk_ndarray (0%nat :: s) [])) at 1.
  rewrite (broadcast_to_same (mk_ndarray (0%nat :: s) []) eq_refl). reflexivity.
Qed.

(** C10, amended.  Nothing checks the batch size.  When it is zero the
    arrays have no element: the division by the batch size divides nothing,
    compute_delta returns the empty array (after the penalty, when one is
    set), and compute_loss without axis returns NaN, the mean over no
    element. *)
Theorem zero_batch_size
    (self : MeanSquaredError) (pred_arr labeled_arr : ndarray) (s : list nat)
    (delta_output : R) :
  shape labeled_arr = 0%nat :: s ->
  shape pred_arr = shape labeled_arr ->
  wf pred_arr -> wf labeled_arr ->
  let empty := mk_ndarray (0%nat :: s) [] in
  shape0 labeled_arr = Ok 0%Z
  /\ raw_delta pred_arr labeled_arr 0 delta_output = empty
  /\ compute_delta self pred_arr labeled_arr delta_output = add_penalty self empty
  /\ compute_loss self pred_arr labeled_arr AxisNone =
     (_ <- add_penalty self empty ;; Ok (scalar NaN))
  /\ (forall r, add_penalty self empty = Ok r -> r = empty)
  /\ (penalty_arr self = None ->
      compute_delta self pred_arr labeled_arr delta_output = Ok empty
      /\ compute_loss self pred_arr labeled_arr AxisNone = Ok (scalar NaN)).
Proof.
  intros Hs Hshape Hpred Hlabeled empty.
  assert (Hl : labeled_arr = empty) by (apply wf_empty; assumption).
  assert (Hp : pred_arr = empty) by (apply wf_empty; [ congruence | assumption ]).
  assert (Hb : shape0 empty = Ok 0%Z) by reflexivity.
  assert (Hpen : forall r, add_penalty self empty = Ok r -> r = empty).
  { intros r. unfold add_penalty. destruct (penalty_arr self) as [ p | ].
    - apply iadd_empty.
    - intros H. injection H as H. symmetry. exact H. }
  assert (Hmean : mean (square empty) AxisNone = Ok (scalar NaN)).
  { unfold mean, square, of_nat. cbn [shape data map size_of fold_right Nat.mul INR Float.sum].
    rewrite div_zero. reflexivity. }
  assert (Hdelta : compute_delta self empty empty delta_output = add_penalty self empty).
  { rewrite (compute_delta_eq self empty empty 0 eq_refl eq_refl eq_refl Hb). reflexivity. }
  assert (Hloss : compute_loss self empty empty AxisNone =
                  (_ <- add_penalty self empty ;; Ok (scalar NaN))).
  { rewrite (compute_loss_eq self empty empty AxisNone 0 eq_refl eq_refl eq_refl Hb).
    change (clip (__grad_clip_threshold self) (raw_diff empty empty 0)) with empty.
    destruct (add_penalty self empty) as [ r | e ] eqn:E; [ | reflexivity ].
    rewrite (Hpen r eq_refl). simpl. exact Hmean. }
  subst pred_arr labeled_arr.
  split; [ exact Hb | ]. split; [ reflexivity | ].
  split; [ exact Hdelta | ]. split; [ exact Hloss | ]. split; [ exact Hpen | ].
  intros Hnone. rewrite Hdelta, Hloss. unfold add_penalty. rewrite Hnone.
  split; reflexivity.
Qed.

Lemma zero_batch_size_witness :
  let empty := mk_ndarray [0%nat; 3%nat] [] in
  compute_delta (__init__ 100000) empty empty 1 = Ok empty
  /\ compute_loss (__init__ 100000) empty empty AxisNone = Ok (scalar NaN).
Proof.
  intros empty.
  destruct (zero_batch_size (__init__ 100000) empty empty [3%nat] 1)
    as (_ & _ & _ & _ & _ & H); try reflexivity.
  apply H. reflexivity.
Defined.

(** C10 as it was stated fails for compute_delta: on arrays of shape (0,)
    the batch size is 0 and compute_delta returns the empty array: no
    element is divided, and the result holds no NaN. *)
Lemma compute_delta_zero_batch_size :
  let empty := mk_ndarray [0%nat] [] in
  shape0 empty = Ok 0%Z
  /\ compute_delta (__init__ 100000) empty empty 1 = Ok empty
  /\ finite empty.
Proof.
  intros empty. split; [ reflexivity | split ].
  - rewrite (compute_delta_eq (__init__ 100000) empty empty 0 eq_refl eq_refl eq_refl eq_refl).
    reflexivity.
  - constructor.
Qed.

(** ** The loss of equal arrays *)

Section Zeros.

Local Open Scope R_scope.

Lemma sum_all_zero (l : list float) : Forall (eq (Fin 0)) l -> Float.sum l = Fin 0.
Proof.
  unfold Float.sum. induction 1 as [ | x l Hx Hl IH ]; simpl; [ reflexivity | ].
  rewrite IH, <- Hx. simpl. f_equal. lra.
Qed.








Lemma all_zero_zeros (s : list nat) : all_zero (zeros s).
Proof.
  unfold all_zero, zeros. simpl. generalize (size_of s). intros n.
  induction n as [ | n IH ]; simpl; constructor; [ reflexivity | exact IH ].
Qed.

Lemma mean_zeros_all (s : list nat) :
  (0 < size_of s)%nat -> mean (zeros s) AxisNone = Ok (scalar (Fin 0)).
Proof.
  intros H. unfold mean. rewrite (sum_all_zero _ (all_zero_zeros s)).
  unfold of_nat. cbn [shape zeros]. rewrite div_Fin by (apply not_0_INR; lia).
  do 3 f_equal. unfold Rdiv. ring.
Qed.

Lemma raw_diff_self (s : list nat) (xs : list R) (b : Z) :
  IZR b <> 0 ->
  raw_diff (mk_ndarray s (map Fin xs)) (mk_ndarray s (map Fin xs)) b =
  mk_ndarray s (map Fin (repeat 0 (length xs))).
Proof.
  intros Hb. rewrite (raw_diff_Fin s s xs xs b Hb). do 2 f_equal.
  induction xs as [ | x xs IH ]; simpl; [ reflexivity | ].
  rewrite IH. f_equal. unfold Rdiv. ring.
Qed.

Lemma sumsq_zeros (n : nat) : sumsq (repeat 0 n) = 0.
Proof.
  unfold sumsq. induction n as [ | n IH ]; simpl; [ reflexivity | ].
  rewrite IH. ring.
Qed.

Lemma square_zeros (s : list nat) (n : nat) :
  square (mk_ndarray s (map Fin (repeat 0 n))) = mk_ndarray s (repeat (Fin 0) n).
Proof.
  unfold square. simpl. f_equal.
  induction n as [ | n IH ]; simpl; [ reflexivity | ].
  rewrite IH. do 2 f_equal. ring.
Qed.

(** The squared difference of an array of real numbers with itself, when
    no penalty is set and the threshold is not negative. *)
Lemma compute_loss_self (self : MeanSquaredError) (s : list nat) (xs : list R)
    (b : Z) (axis : axis_arg) :
  let arr := mk_ndarray s (map Fin xs) in
  wf arr -> shape0 arr = Ok b -> IZR b <> 0 ->
  penalty_arr self = None -> 0 <= __grad_clip_threshold self ->
  compute_loss self arr arr axis = mean (zeros s) axis.
Proof.
  intros arr Hwf Hbatch Hb Hnone Ht.
  rewrite (compute_loss_eq self arr arr axis b eq_refl Hwf Hwf Hbatch).
  unfold arr. rewrite (raw_diff_self s xs b Hb).
  rewrite clip_unchanged.
  - unfold add_penalty. rewrite Hnone, bind_Ok, square_zeros.
    unfold zeros. unfold wf in Hwf. simpl in Hwf. rewrite length_map in Hwf.
    rewrite Hwf. reflexivity.
  - rewrite norm_Fin, sumsq_zeros, sqrt_0. apply gt_Fin_false. exact Ht.
Qed.

End Zeros.




(** * Further properties of the three methods *)

(** ** compute_loss and compute_delta *)

Lemma shape0_same_shape (a b : ndarray) : shape a = shape b -> shape0 a = shape0 b.
Proof. unfold shape0. intros H. rewrite H. reflexivity. Qed.

Lemma raw_delta_one_swap (pred_arr labeled_arr : ndarray) (b : Z) :
  raw_delta labeled_arr pred_arr b 1 = raw_diff pred_arr labeled_arr b.
Proof.
  unfold raw_delta, raw_diff. f_equal. apply map2_ext. intros x y. apply mul_one.
Qed.

(** X1. On arrays of one shape, the array that compute_loss squares is the
    delta that compute_delta returns for the swapped arguments and
    [delta_output = 1], whatever the threshold and the penalty: compute_loss
    is the mean of the squares of that delta. *)
Theorem compute_loss_squares_delta
    (self : MeanSquaredError) (pred_arr labeled_arr : ndarray) :
  shape pred_arr = shape labeled_arr -> wf pred_arr -> wf labeled_arr ->
  compute_loss_diff self pred_arr labeled_arr = compute_delta self labeled_arr pred_arr 1
  /\ (forall axis,
      compute_loss self pred_arr labeled_arr axis =
      (delta_arr <- compute_delta self labeled_arr pred_arr 1 ;;
       mean (square delta_arr) axis)).
Proof.
  intros Hshape Hpred Hlabeled.
  assert (H : compute_loss_diff self pred_arr labeled_arr =
              compute_delta self labeled_arr pred_arr 1).
  { destruct (shape0 labeled_arr) as [ b | e ] eqn:E.
    - rewrite (compute_loss_diff_eq self pred_arr labeled_arr b Hshape Hpred Hlabeled E).
      assert (E' : shape0 pred_arr = Ok b)
        by (rewrite (shape0_same_shape pred_arr labeled_arr Hshape); exact E).
      rewrite (compute_delta_eq self labeled_arr pred_arr b (eq_sym Hshape) Hlabeled Hpred E').
      rewrite raw_delta_one_swap. reflexivity.
    - unfold compute_loss_diff, compute_delta.
      rewrite (shape0_same_shape pred_arr labeled_arr Hshape), E. reflexivity. }
  split; [ exact H | ].
  intros axis. unfold compute_loss. rewrite H. reflexivity.
Qed.

Lemma compute_loss_squares_delta_witness :
  let self := set_penalty_arr (__init__ 1) (Some (mk_ndarray [2%nat] [Fin 1; Fin 1])) in
  let pred_arr := mk_ndarray [2%nat] [Fin 3; Fin 4] in
  let labeled_arr := mk_ndarray [2%nat] [Fin 0; Fin 1] in
  compute_loss self pred_arr labeled_arr AxisNone =
  (delta_arr <- compute_delta self labeled_arr pred_arr 1 ;;
   mean (square delta_arr) AxisNone).
Proof.
  intros self pred_arr labeled_arr.
  destruct (compute_loss_squares_delta self pred_arr labeled_arr) as [ _ H ];
    try reflexivity.
  apply H.
Defined.

(** ** The loss with its arguments swapped *)

Section Opposite.

Local Open Scope R_scope.

Lemma map2_swap {A B C : Type} (f : A -> B -> C) :
  forall (l1 : list A) (l2 : list B),
  map2 f l1 l2 = map2 (fun y x => f x y) l2 l1.
Proof.
  induction l1 as [ | x l1 IH ]; intros [ | y l2 ]; simpl; try reflexivity.
  rewrite IH. reflexivity.
Qed.

Lemma div_sub_opp (x y c : float) : div (sub x y) c = opp (div (sub y x) c).
Proof.
  destruct x as [ a | ], y as [ b | ], c as [ r | ]; simpl; try reflexivity.
  destruct (Req_dec_T r 0); simpl; [ reflexivity | ].
  f_equal. field. assumption.
Qed.

Lemma mul_opp_opp (x : float) : mul (opp x) (opp x) = mul x x.
Proof. destruct x as [ a | ]; simpl; [ f_equal; ring | reflexivity ]. Qed.

Lemma mul_opp_l (x c : float) : mul (opp x) c = opp (mul x c).
Proof.
  destruct x as [ a | ], c as [ r | ]; simpl; try reflexivity. f_equal. ring.
Qed.

Lemma raw_diff_swap (pred_arr labeled_arr : ndarray) (b : Z) :
  shape pred_arr = shape labeled_arr ->
  raw_diff labeled_arr pred_arr b =
  mk_ndarray (shape labeled_arr) (map opp (data (raw_diff pred_arr labeled_arr b))).
Proof.
  intros Hshape. unfold raw_diff. simpl. rewrite Hshape. f_equal.
  rewrite map2_map, (map2_swap _ (data pred_arr) (data labeled_arr)).
  apply map2_ext. intros x y. apply div_sub_opp.
Qed.

Lemma norm_opp (s s' : list nat) (d : list float) :
  norm (mk_ndarray s (map opp d)) = norm (mk_ndarray s' d).
Proof.
  unfold norm. simpl. rewrite map_map.
  rewrite (map_ext _ (fun x => mul x x) mul_opp_opp). reflexivity.
Qed.

(** The squares of a clipped array do not change when every element is
    replaced by its opposite. *)
Lemma square_clip_opp (t : R) (s : list nat) (d : list float) :
  square (clip t (mk_ndarray s (map opp d))) = square (clip t (mk_ndarray s d)).
Proof.
  unfold clip. rewrite (norm_opp s s d).
  unfold square, multiply_scalar. simpl. f_equal. rewrite !map_map.
  apply map_ext. intros x. rewrite mul_opp_l. apply mul_opp_opp.
Qed.

End Opposite.

(** X2. Without penalty the loss is symmetric: on arrays of one shape,
    compute_loss gives the same result when the predictions and the labels
    are swapped, for every axis and every threshold. *)
Theorem compute_loss_symmetric
    (self : MeanSquaredError) (pred_arr labeled_arr : ndarray) (axis : axis_arg) :
  shape pred_arr = shape labeled_arr -> wf pred_arr -> wf labeled_arr ->
  penalty_arr self = None ->
  compute_loss self pred_arr labeled_arr axis =
  compute_loss self labeled_arr pred_arr axis.
Proof.
  intros Hshape Hpred Hlabeled Hnone.
  destruct (shape0 labeled_arr) as [ b | e ] eqn:E.
  - assert (E' : shape0 pred_arr = Ok b)
      by (rewrite (shape0_same_shape pred_arr labeled_arr Hshape); exact E).
    rewrite (compute_loss_eq self pred_arr labeled_arr axis b Hshape Hpred Hlabeled E).
    rewrite (compute_loss_eq self labeled_arr pred_arr axis b (eq_sym Hshape) Hlabeled Hpred E').
    unfold add_penalty. rewrite Hnone, !bind_Ok.
    rewrite (raw_diff_swap pred_arr labeled_arr b Hshape).
    destruct (raw_diff pred_arr labeled_arr b) as [ s d ] eqn:R.
    assert (Hs : s = shape labeled_arr).
    { unfold raw_diff in R. injection R as R _. symmetry. exact R. }
    subst s. simpl data. rewrite square_clip_opp. reflexivity.
  - unfold compute_loss, compute_loss_diff.
    rewrite (shape0_same_shape pred_arr labeled_arr Hshape), E. reflexivity.
Qed.

Lemma compute_loss_symmetric_witness :
  let pred_arr := mk_ndarray [2%nat] [Fin 3; Fin 4] in
  let labeled_arr := mk_ndarray [2%nat] [Fin 0; Fin 1] in
  compute_loss (__init__ 1) pred_arr labeled_arr (AxisInt 0) =
  compute_loss (__init__ 1) labeled_arr pred_arr (AxisInt 0).
Proof.
  intros pred_arr labeled_arr.
  apply (compute_loss_symmetric (__init__ 1) pred_arr labeled_arr (AxisInt 0));
    reflexivity.
Defined.

(** ** reverse_delta followed by compute_delta *)

Section RightInverse.

Local Open Scope R_scope.




End RightInverse.





(** ** The sign of the loss *)

Section Sign.

Local Open Scope R_scope.

Lemma square_nonneg (x : float) : nonneg_or_nan (mul x x).
Proof. destruct x as [ r | ]; simpl; [ nra | exact I ]. Qed.

Lemma add_nonneg (x y : float) :
  nonneg_or_nan x -> nonneg_or_nan y -> nonneg_or_nan (add x y).
Proof.
  destruct x as [ a | ], y as [ b | ]; simpl; try (intros; exact I). intros; lra.
Qed.

Lemma sum_nonneg (l : list float) :
  Forall nonneg_or_nan l -> nonneg_or_nan (Float.sum l).
Proof.
  unfold Float.sum. induction 1 as [ | x l Hx Hl IH ]; simpl; [ lra | ].
  apply add_nonneg; assumption.
Qed.

Lemma nth_nonneg (l : list float) (i : nat) :
  Forall nonneg_or_nan l -> nonneg_or_nan (nth i l (Fin 0)).
Proof.
  intros H. destruct (Nat.lt_ge_cases i (length l)) as [ Hi | Hi ].
  - rewrite Forall_forall in H. apply H. apply nth_In. exact Hi.
  - rewrite nth_overflow by exact Hi. simpl. lra.
Qed.

Lemma sum_axis_nonneg (k : nat) (a : ndarray) :
  Forall nonneg_or_nan (data a) -> Forall nonneg_or_nan (data (sum_axis k a)).
Proof.
  unfold sum_axis. simpl. intros H.
  apply Forall_forall. intros x Hx.
  apply in_flat_map in Hx. destruct Hx as [ o [ _ Hx ] ].
  apply in_map_iff in Hx. destruct Hx as [ i [ Hx _ ] ].
  subst x. apply sum_nonneg.
  apply Forall_forall. intros y Hy.
  apply in_map_iff in Hy. destruct Hy as [ j [ Hy _ ] ].
  subst y. apply nth_nonneg. exact H.
Qed.

Lemma sum_axes_nonneg (axes : list nat) (a : ndarray) :
  Forall nonneg_or_nan (data a) -> Forall nonneg_or_nan (data (sum_axes axes a)).
Proof.
  unfold sum_axes. generalize (rev (seq 0 (length (shape a)))). intros ks.
  revert a. induction ks as [ | k ks IH ]; intros a H; simpl; [ exact H | ].
  apply IH. destruct (existsb (Nat.eqb k) axes); [ | exact H ].
  apply sum_axis_nonneg. exact H.
Qed.

Lemma div_of_nat_nonneg (x : float) (n : nat) :
  nonneg_or_nan x -> nonneg_or_nan (div x (of_nat n)).
Proof.
  destruct x as [ r | ]; simpl; [ | intros; exact I ].
  intros Hr. destruct (Req_dec_T (INR n) 0) as [ _ | Hn ]; simpl; [ exact I | ].
  apply Rle_mult_inv_pos; [ exact Hr | ].
  pose proof (pos_INR n). lra.
Qed.

Lemma divide_scalar_nonneg (a : ndarray) (n : nat) :
  Forall nonneg_or_nan (data a) ->
  Forall nonneg_or_nan (data (divide_scalar a (of_nat n))).
Proof.
  unfold divide_scalar. simpl. intros H.
  induction H as [ | x l Hx Hl IH ]; simpl; constructor; [ | exact IH ].
  apply div_of_nat_nonneg. exact Hx.
Qed.

Lemma mean_nonneg (a : ndarray) (axis : axis_arg) (r : ndarray) :
  Forall nonneg_or_nan (data a) -> mean a axis = Ok r ->
  Forall nonneg_or_nan (data r).
Proof.
  intros H. destruct axis as [ | k | ks ]; simpl.
  - intros E. injection E as E. subst r. simpl.
    constructor; [ | constructor ].
    apply div_of_nat_nonneg, sum_nonneg. exact H.
  - destruct (normalize_axis (length (shape a)) k) as [ i | e ]; simpl; [ | discriminate ].
    intros E. injection E as E. subst r.
    apply divide_scalar_nonneg, sum_axis_nonneg. exact H.
  - destruct (mapM (normalize_axis (length (shape a))) ks) as [ axes | e ]; simpl;
      [ | discriminate ].
    destruct (has_dup axes); [ discriminate | ].
    intros E. injection E as E. subst r.
    apply divide_scalar_nonneg, sum_axes_nonneg. exact H.
Qed.

Lemma square_data_nonneg (a : ndarray) : Forall nonneg_or_nan (data (square a)).
Proof.
  unfold square. simpl. induction (data a) as [ | x l IH ]; simpl; constructor.
  - apply square_nonneg.
  - exact IH.
Qed.

End Sign.

(** X5. The loss is never negative: every element of an array that
    compute_loss returns is NaN or a number that is not negative, for every
    threshold, penalty, axis and pair of arrays. *)
Theorem compute_loss_nonneg
    (self : MeanSquaredError) (pred_arr labeled_arr : ndarray) (axis : axis_arg)
    (r : ndarray) :
  compute_loss self pred_arr labeled_arr axis = Ok r ->
  Forall nonneg_or_nan (data r).
Proof.
  unfold compute_loss.
  destruct (compute_loss_diff self pred_arr labeled_arr) as [ d | e ]; simpl;
    [ | discriminate ].
  apply mean_nonneg, square_data_nonneg.
Qed.

Lemma compute_loss_nonneg_witness :
  let arr := mk_ndarray [2%nat] [Fin 3; Fin 4] in
  compute_loss (__init__ 1) arr arr AxisNone = Ok (scalar (Fin 0))
  /\ Forall nonneg_or_nan (data (scalar (Fin 0))).
Proof.
  intros arr.
  assert (H : compute_loss (__init__ 1) arr arr AxisNone = Ok (scalar (Fin 0))).
  { transitivity (mean (zeros [2%nat]) AxisNone).
    - apply (compute_loss_self (__init__ 1) [2%nat] [3%R; 4%R] 2 AxisNone);
        try reflexivity.
      + apply not_0_IZR. lia.
      + simpl. lra.
    - apply mean_zeros_all. simpl. lia. }
  split; [ exact H | ].
  exact (compute_loss_nonneg (__init__ 1) arr arr AxisNone (scalar (Fin 0)) H).
Defined.

(** ** The batch size as a 32-bit integer *)

(** X6. The batch size that the three methods read is the leading dimension
    reduced to a 32-bit [int]: it lies in [-2^31, 2^31), differs from the
    leading dimension by a multiple of 2^32, is the leading dimension itself
    below 2^31, and is negative from 2^31 up to 2^32. *)
Theorem batch_size_int (n : nat) (s : list nat) (d : list float) :
  exists b,
    shape0 (mk_ndarray (n :: s) d) = Ok b
    /\ (- 2 ^ 31 <= b < 2 ^ 31)%Z
    /\ (exists q, b = Z.of_nat n - 2 ^ 32 * q)%Z
    /\ ((Z.of_nat n < 2 ^ 31)%Z -> b = Z.of_nat n)
    /\ ((2 ^ 31 <= Z.of_nat n < 2 ^ 32)%Z -> (b = Z.of_nat n - 2 ^ 32)%Z /\ (b < 0)%Z).
Proof.
  exists (to_int (Z.of_nat n)). split; [ reflexivity | ].
  unfold to_int.
  pose proof (Z.mod_pos_bound (Z.of_nat n + 2 ^ 31) (2 ^ 32) ltac:(lia)) as Hbound.
  pose proof (Z.div_mod (Z.of_nat n + 2 ^ 31) (2 ^ 32) ltac:(lia)) as Hdiv.
  split; [ lia | ]. split; [ | split ].
  - exists ((Z.of_nat n + 2 ^ 31) / 2 ^ 32)%Z. lia.
  - intros Hn. rewrite Z.mod_small by lia. lia.
  - intros Hn.
    assert (Hq : ((Z.of_nat n + 2 ^ 31) / 2 ^ 32 = 1)%Z).
    { symmetry. apply (Z.div_unique _ _ 1 (Z.of_nat n + 2 ^ 31 - 2 ^ 32)%Z); lia. }
    rewrite Hq in Hdiv. lia.
Qed.

(** ** The shape of the penalty *)

Section PenaltyShape.

Lemma broadcast_dims_nil_r (r : list nat) : broadcast_dims r [] = Some r.
Proof. destruct r; reflexivity. Qed.

Lemma broadcast_shapes_scalar (s : list nat) : broadcast_shapes s [] = Some s.
Proof.
  unfold broadcast_shapes. change (rev []) with (@nil nat).
  rewrite broadcast_dims_nil_r. simpl. rewrite rev_involutive. reflexivity.
Qed.

Lemma size_of_ones (k : nat) : size_of (repeat 1 k) = 1.
Proof. induction k as [ | k IH ]; simpl; [ reflexivity | ]. fold (size_of (repeat 1 k)). lia. Qed.

Lemma concat_repeat_repeat {A : Type} (x : A) (m n : nat) :
  concat (repeat (repeat x m) n) = repeat x (n * m).
Proof.
  induction n as [ | n IH ]; simpl; [ reflexivity | ].
  rewrite IH, repeat_app. reflexivity.
Qed.

(** One element repeated to a shape. *)
Lemma expand_scalar (x : float) : forall s : list nat,
  expand s (repeat 1 (length s)) [x] = repeat x (size_of s).
Proof.
  induction s as [ | n s IH ]; [ reflexivity | ].
  cbn [length repeat expand size_of fold_right]. fold (size_of s).
  rewrite size_of_ones.
  destruct (Nat.eqb 1 n) eqn:E.
  - apply Nat.eqb_eq in E. subst n. cbn [seq flat_map Nat.mul skipn firstn].
    rewrite IH, app_nil_r, Nat.add_0_r. reflexivity.
  - rewrite IH. apply concat_repeat_repeat.
Qed.

Lemma broadcast_to_scalar (s : list nat) (x : float) :
  broadcast_to s (scalar x) = repeat x (size_of s).
Proof.
  unfold broadcast_to, scalar. simpl shape. simpl data.
  rewrite Nat.sub_0_r, app_nil_r. apply expand_scalar.
Qed.

Lemma map2_repeat {A B C : Type} (f : A -> B -> C) (x : B) :
  forall l : list A, map2 f l (repeat x (length l)) = map (fun y => f y x) l.
Proof.
  induction l as [ | y l IH ]; simpl; [ reflexivity | ]. rewrite IH. reflexivity.
Qed.

(** In place, a 0-d array is added to every element. *)
Lemma iadd_scalar (a : ndarray) (x : float) :
  wf a ->
  iadd a (scalar x) = Ok (mk_ndarray (shape a) (map (fun y => add y x) (data a))).
Proof.
  intros Ha. unfold iadd. simpl shape at 2. rewrite broadcast_shapes_scalar.
  destruct (list_eq_dec Nat.eq_dec (shape a) (shape a)) as [ _ | Hne ];
    [ | exfalso; apply Hne; reflexivity ].
  rewrite (broadcast_to_same a Ha), broadcast_to_scalar, <- Ha, map2_repeat.
  reflexivity.
Qed.

Lemma iadd_bad_shape (a p : ndarray) :
  broadcast_shapes (shape a) (shape p) <> Some (shape a) ->
  iadd a p = Raise ValueError.
Proof.
  intros H. unfold iadd.
  destruct (broadcast_shapes (shape a) (shape p)) as [ s | ]; [ | reflexivity ].
  destruct (list_eq_dec Nat.eq_dec s (shape a)) as [ E | _ ]; [ | reflexivity ].
  exfalso. apply H. rewrite E. reflexivity.
Qed.

Lemma clip_wf (t : R) (a : ndarray) : wf a -> wf (clip t a).
Proof.
  unfold wf, clip, multiply_scalar. simpl. rewrite length_map. intros H. exact H.
Qed.

Lemma raw_diff_wf (pred_arr labeled_arr : ndarray) (b : Z) :
  shape pred_arr = shape labeled_arr -> wf pred_arr -> wf labeled_arr ->
  wf (raw_diff pred_arr labeled_arr b).
Proof.
  unfold wf, raw_diff. simpl. intros Hs Hp Hl.
  rewrite map2_length; [ exact Hl | ]. rewrite Hp, Hl, Hs. reflexivity.
Qed.

End PenaltyShape.

(** X7. A penalty that is a single number (a 0-d array) is added to every
    element: on arrays of one shape, compute_delta returns the delta it
    returns without penalty with the number added to each element, and
    compute_loss squares its difference after the same addition. *)
Theorem scalar_penalty_added_to_every_element
    (self : MeanSquaredError) (pred_arr labeled_arr : ndarray)
    (delta_output : R) (c : float) :
  shape pred_arr = shape labeled_arr -> wf pred_arr -> wf labeled_arr ->
  let bare := set_penalty_arr self None in
  let penalized := set_penalty_arr self (Some (scalar c)) in
  compute_delta penalized pred_arr labeled_arr delta_output =
    (d <- compute_delta bare pred_arr labeled_arr delta_output ;;
     Ok (mk_ndarray (shape d) (map (fun x => add x c) (data d))))
  /\ (forall axis,
      compute_loss penalized pred_arr labeled_arr axis =
      (d <- compute_loss_diff bare pred_arr labeled_arr ;;
       mean (square (mk_ndarray (shape d) (map (fun x => add x c) (data d)))) axis)).
Proof.
  intros Hshape Hpred Hlabeled bare penalized.
  destruct (shape0 labeled_arr) as [ b | e ] eqn:E.
  - split; [ | intros axis; unfold compute_loss ].
    + rewrite (compute_delta_eq penalized pred_arr labeled_arr b Hshape Hpred Hlabeled E).
      rewrite (compute_delta_eq bare pred_arr labeled_arr b Hshape Hpred Hlabeled E).
      unfold add_penalty. cbn [penalty_arr penalized bare set_penalty_arr __grad_clip_threshold].
      rewrite bind_Ok. apply iadd_scalar, clip_wf, raw_delta_wf; assumption.
    + rewrite (compute_loss_diff_eq penalized pred_arr labeled_arr b Hshape Hpred Hlabeled E).
      rewrite (compute_loss_diff_eq bare pred_arr labeled_arr b Hshape Hpred Hlabeled E).
      unfold add_penalty. cbn [penalty_arr penalized bare set_penalty_arr __grad_clip_threshold].
      rewrite iadd_scalar by (apply clip_wf, raw_diff_wf; assumption).
      reflexivity.
  - unfold compute_loss, compute_loss_diff, compute_delta. rewrite E.
    split; [ reflexivity | intros axis; reflexivity ].
Qed.

Lemma scalar_penalty_added_to_every_element_witness :
  let pred_arr := mk_ndarray [2%nat] [Fin 3; Fin 4] in
  let labeled_arr := mk_ndarray [2%nat] [Fin 0; Fin 1] in
  compute_delta (set_penalty_arr (__init__ 1) (Some (scalar (Fin 7)))) pred_arr labeled_arr 1 =
  (d <- compute_delta (set_penalty_arr (__init__ 1) None) pred_arr labeled_arr 1 ;;
   Ok (mk_ndarray (shape d) (map (fun x => add x (Fin 7)) (data d)))).
Proof.
  intros pred_arr labeled_arr.
  destruct (scalar_penalty_added_to_every_element (__init__ 1) pred_arr labeled_arr 1 (Fin 7))
    as [ H _ ]; try reflexivity.
  exact H.
Defined.

(** X8. A penalty whose shape does not broadcast to the shape of the inputs
    makes compute_delta and compute_loss raise ValueError, at the in-place
    addition: on arrays of one shape with at least one dimension. *)
Theorem penalty_shape_error
    (self : MeanSquaredError) (pred_arr labeled_arr p : ndarray)
    (delta_output : R) (batch_size : Z) :
  shape pred_arr = shape labeled_arr -> wf pred_arr -> wf labeled_arr ->
  shape0 labeled_arr = Ok batch_size ->
  penalty_arr self = Some p ->
  broadcast_shapes (shape pred_arr) (shape p) <> Some (shape pred_arr) ->
  compute_delta self pred_arr labeled_arr delta_output = Raise ValueError
  /\ (forall axis, compute_loss self pred_arr labeled_arr axis = Raise ValueError).
Proof.
  intros Hshape Hpred Hlabeled Hbatch Hsome Hbad. split; [ | intros axis; unfold compute_loss ].
  - rewrite (compute_delta_eq self pred_arr labeled_arr batch_size Hshape Hpred Hlabeled Hbatch).
    unfold add_penalty. rewrite Hsome. apply iadd_bad_shape. exact Hbad.
  - rewrite (compute_loss_diff_eq self pred_arr labeled_arr batch_size Hshape Hpred Hlabeled Hbatch).
    unfold add_penalty. rewrite Hsome.
    rewrite iadd_bad_shape; [ reflexivity | ].
    simpl shape. rewrite <- Hshape. exact Hbad.
Qed.

Lemma penalty_shape_error_witness :
  let self := set_penalty_arr (__init__ 1) (Some (mk_ndarray [2%nat; 1%nat] [Fin 1; Fin 1])) in
  let arr := mk_ndarray [1%nat] [Fin 0] in
  compute_delta self arr arr 1 = Raise ValueError.
Proof.
  intros self arr.
  destruct (penalty_shape_error self arr arr (mk_ndarray [2%nat; 1%nat] [Fin 1; Fin 1]) 1 1)
    as [ H _ ]; try reflexivity.
  - discriminate.
  - exact H.
Defined.

(** ** Equal arrays, a threshold of zero, a factor of zero *)

Section Degenerate.

Local Open Scope R_scope.



Lemma raw_delta_self (s : list nat) (xs : list R) (b : Z) (delta_output : R) :
  IZR b <> 0 ->
  raw_delta (mk_ndarray s (map Fin xs)) (mk_ndarray s (map Fin xs)) b delta_output =
  mk_ndarray s (map Fin (repeat 0 (length xs))).
Proof.
  intros Hb. rewrite (raw_delta_Fin s s xs xs b delta_output Hb). do 2 f_equal.
  induction xs as [ | x xs IH ]; simpl; [ reflexivity | ].
  rewrite IH. f_equal. unfold Rdiv. ring.
Qed.

Lemma zeros_map_Fin (s : list nat) (n : nat) :
  n = size_of s -> mk_ndarray s (map Fin (repeat 0 n)) = zeros s.
Proof.
  intros H. unfold zeros. rewrite <- H. f_equal. clear H.
  induction n as [ | k IH ]; simpl; [ reflexivity | ].
  rewrite IH. reflexivity.
Qed.

Lemma add_zeros_l : forall (qs : list R),
  map2 add (repeat (Fin 0) (length qs)) (map Fin qs) = map Fin qs.
Proof.
  induction qs as [ | q qs IH ]; simpl; [ reflexivity | ].
  rewrite IH. do 2 f_equal. ring.
Qed.



End Degenerate.





(** X11. The delta of a perfect prediction: on an array of real numbers
    against itself, with a batch size above zero and a threshold that is not
    negative, compute_delta returns an array of zeros when no penalty is set,
    and the penalty itself when a penalty of the shape of the inputs is
    set. *)
Theorem compute_delta_equal_arrays
    (self : MeanSquaredError) (s : list nat) (xs : list R)
    (delta_output : R) (batch_size : Z) :
  let arr := mk_ndarray s (map Fin xs) in
  wf arr -> shape0 arr = Ok batch_size -> (0 < batch_size)%Z ->
  (0 <= __grad_clip_threshold self)%R ->
  (penalty_arr self = None ->
   compute_delta self arr arr delta_output = Ok (zeros s))
  /\ (forall qs, penalty_arr self = Some (mk_ndarray s (map Fin qs)) ->
      wf (mk_ndarray s (map Fin qs)) ->
      compute_delta self arr arr delta_output = Ok (mk_ndarray s (map Fin qs))).
Proof.
  intros arr Hwf Hbatch Hpos Ht.
  assert (Hb : IZR batch_size <> 0%R) by (apply (shape0_nonzero arr); assumption).
  assert (Hlen : length xs = size_of s).
  { unfold wf in Hwf. simpl in Hwf. rewrite length_map in Hwf. exact Hwf. }
  assert (Hclip : clip (__grad_clip_threshold self)
                    (raw_delta arr arr batch_size delta_output) = zeros s).
  { unfold arr. rewrite (raw_delta_self s xs batch_size delta_output Hb).
    rewrite clip_unchanged.
    - apply zeros_map_Fin. exact Hlen.
    - rewrite norm_Fin, sumsq_zeros, sqrt_0. apply gt_Fin_false. exact Ht. }
  rewrite (compute_delta_eq self arr arr batch_size eq_refl Hwf Hwf Hbatch), Hclip.
  unfold add_penalty. split.
  - intros Hnone. rewrite Hnone. reflexivity.
  - intros qs Hsome Hq. rewrite Hsome.
    rewrite (iadd_same_shape (zeros s) (mk_ndarray s (map Fin qs)) eq_refl).
    + simpl. f_equal. f_equal.
      assert (Hqs : length qs = size_of s).
      { unfold wf in Hq. simpl in Hq. rewrite length_map in Hq. exact Hq. }
      rewrite <- Hqs. apply add_zeros_l.
    + unfold wf, zeros. simpl. apply repeat_length.
    + exact Hq.
Qed.

Lemma compute_delta_equal_arrays_witness :
  let arr := mk_ndarray [2%nat] [Fin 3; Fin 4] in
  compute_delta (__init__ 1) arr arr 1 = Ok (zeros [2%nat]).
Proof.
  intros arr.
  destruct (compute_delta_equal_arrays (__init__ 1) [2%nat] [3%R; 4%R] 1 2)
    as [ H _ ]; try reflexivity.
  - simpl. lra.
  - apply H. reflexivity.
Defined.

(** ** The shape of the loss *)

Section LossShape.

Lemma size_of_app (l1 l2 : list nat) : size_of (l1 ++ l2) = size_of l1 * size_of l2.
Proof.
  unfold size_of. induction l1 as [ | n l1 IH ]; simpl; [ lia | ].
  rewrite IH. lia.
Qed.

Lemma length_flat_map_const {A B : Type} (f : A -> list B) (m : nat) :
  (forall a, length (f a) = m) ->
  forall l : list A, length (flat_map f l) = length l * m.
Proof.
  intros H. induction l as [ | a l IH ]; simpl; [ reflexivity | ].
  rewrite length_app, H, IH. reflexivity.
Qed.

(** The sum along an axis has as many elements as its shape says. *)
Lemma sum_axis_wf (k : nat) (a : ndarray) : wf (sum_axis k a).
Proof.
  unfold wf, sum_axis. simpl.
  rewrite (length_flat_map_const _ (size_of (skipn (S k) (shape a)))).
  - rewrite length_seq, size_of_app. reflexivity.
  - intros o. rewrite length_map, length_seq. reflexivity.
Qed.

Lemma divide_scalar_wf (a : ndarray) (c : float) : wf a -> wf (divide_scalar a c).
Proof.
  unfold wf, divide_scalar. simpl. rewrite length_map. intros H. exact H.
Qed.

Lemma normalize_axis_in_range (ndim : nat) (k : Z) :
  (- Z.of_nat ndim <= k < Z.of_nat ndim)%Z ->
  normalize_axis ndim k =
  Ok (Z.to_nat (if (k <? 0)%Z then k + Z.of_nat ndim else k)).
Proof.
  intros H. unfold normalize_axis.
  destruct (Z.leb_spec (- Z.of_nat ndim) k); [ | lia ].
  destruct (Z.ltb_spec k (Z.of_nat ndim)); [ | lia ].
  reflexivity.
Qed.

Lemma normalize_axis_out_of_range (ndim : nat) (k : Z) :
  (k < - Z.of_nat ndim \/ Z.of_nat ndim <= k)%Z ->
  normalize_axis ndim k = Raise AxisError.
Proof.
  intros H. unfold normalize_axis.
  destruct (Z.leb_spec (- Z.of_nat ndim) k); [ | reflexivity ].
  destruct (Z.ltb_spec k (Z.of_nat ndim)); [ lia | reflexivity ].
Qed.

Lemma compute_loss_diff_shape
    (self : MeanSquaredError) (pred_arr labeled_arr d : ndarray) :
  shape pred_arr = shape labeled_arr -> wf pred_arr -> wf labeled_arr ->
  compute_loss_diff self pred_arr labeled_arr = Ok d ->
  shape d = shape pred_arr.
Proof.
  intros Hshape Hpred Hlabeled Hd.
  destruct (shape0 labeled_arr) as [ b | e ] eqn:E.
  - rewrite (compute_loss_diff_eq self pred_arr labeled_arr b Hshape Hpred Hlabeled E) in Hd.
    rewrite (add_penalty_shape _ _ _ Hd). simpl. symmetry. exact Hshape.
  - unfold compute_loss_diff in Hd. rewrite E in Hd. discriminate Hd.
Qed.

End LossShape.

(** X12. The shape of the loss: on arrays of one shape for which the
    difference is computed, compute_loss without axis returns a 0-d array of
    one element; with an axis [k] in range (counted from the end when
    negative) it returns a well-formed array of the shape of the inputs
    without dimension [k]; with an axis out of range it raises AxisError. *)
Theorem compute_loss_shape
    (self : MeanSquaredError) (pred_arr labeled_arr d : ndarray) :
  shape pred_arr = shape labeled_arr -> wf pred_arr -> wf labeled_arr ->
  compute_loss_diff self pred_arr labeled_arr = Ok d ->
  let s := shape pred_arr in
  let ndim := Z.of_nat (length s) in
  (exists x, compute_loss self pred_arr labeled_arr AxisNone = Ok (scalar x))
  /\ (forall k, (- ndim <= k < ndim)%Z ->
      let i := Z.to_nat (if (k <? 0)%Z then k + ndim else k) in
      exists r, compute_loss self pred_arr labeled_arr (AxisInt k) = Ok r
                /\ shape r = firstn i s ++ skipn (S i) s
                /\ wf r)
  /\ (forall k, (k < - ndim \/ ndim <= k)%Z ->
      compute_loss self pred_arr labeled_arr (AxisInt k) = Raise AxisError).
Proof.
  intros Hshape Hpred Hlabeled Hd s ndim.
  pose proof (compute_loss_diff_shape self pred_arr labeled_arr d Hshape Hpred Hlabeled Hd)
    as Hsd.
  unfold compute_loss. rewrite Hd. cbn [bind].
  assert (Hsq : shape (square d) = s) by exact Hsd.
  split; [ | split ].
  - eexists. reflexivity.
  - intros k Hk. cbv zeta. unfold mean. rewrite Hsq.
    rewrite (normalize_axis_in_range (length s) k Hk), bind_Ok. fold ndim.
    eexists. split; [ reflexivity | ]. split.
    + simpl. rewrite Hsd. reflexivity.
    + apply divide_scalar_wf, sum_axis_wf.
  - intros k Hk. unfold mean. rewrite Hsq.
    rewrite (normalize_axis_out_of_range (length s) k Hk). reflexivity.
Qed.

Lemma compute_loss_shape_witness :
  let pred_arr := mk_ndarray [2%nat; 1%nat] [Fin 3; Fin 4] in
  let labeled_arr := mk_ndarray [2%nat; 1%nat] [Fin 0; Fin 1] in
  (exists r, compute_loss (__init__ 1) pred_arr labeled_arr (AxisInt (-1)) = Ok r
             /\ shape r = [2%nat] /\ wf r)
  /\ compute_loss (__init__ 1) pred_arr labeled_arr (AxisInt 2) = Raise AxisError.
Proof.
  intros pred_arr labeled_arr.
  destruct (compute_loss_diff (__init__ 1) pred_arr labeled_arr) as [ d | e ] eqn:E.
  - destruct (compute_loss_shape (__init__ 1) pred_arr labeled_arr d eq_refl eq_refl eq_refl E)
      as (_ & H1 & H2).
    split; [ apply (H1 (-1)%Z); simpl; lia | apply (H2 2%Z); simpl; lia ].
  - exfalso.
    rewrite (compute_loss_diff_eq (__init__ 1) pred_arr labeled_arr 2
               eq_refl eq_refl eq_refl eq_refl) in E.
    discriminate E.
Defined.

(** ** The round trip of a clipped delta *)



